(** * SeminalInputPass: a shallow embedding of
      llvm/lib/Transforms/SeminalInputPass/SeminalInputPass.cpp

    The pass walks one [Function], collects the operands of calls to
    [scanf] into [inputVariables], records for every branch or call
    instruction the subset of those values it is judged to depend on in
    [keyPointDependencies], and prints the non-empty entries to [errs()].

    The IR classes themselves ([Value], [User], [Instruction], ...) are
    LLVM's; the pass only reads them through a handful of accessors.  They
    are gathered in the record [IR] and every definition of the pass is
    parametrised by it. *)

From stdpp Require Import gmap strings list sorting.

Set Warnings "-clear-no-such-hyp".

(** ** Handles

    The pass manipulates [Value *], [Instruction *], ... and compares them
    by address only.  A handle is therefore an address; [Instruction] is a
    subclass of [User], itself a subclass of [Value], so the three share
    one address space and [user == Inst] is an address comparison. *)

Abbreviation Value := positive (only parsing).
Abbreviation User := positive (only parsing).
Abbreviation Instruction := positive (only parsing).
Abbreviation BasicBlock := positive (only parsing).
Abbreviation Function := positive (only parsing).
Abbreviation DILocation := positive (only parsing).

(** The instruction classes that [isa<>] and [dyn_cast<>] tell apart by
    opcode.  [BranchInst] is the [br] instruction, conditional or not;
    [CallInst] is the [call] instruction, intrinsic calls included;
    [switch], [indirectbr], [invoke] and [callbr] are classes of their
    own. *)
Inductive InstClass :=
  | ReturnInst | BranchInst | SwitchInst | IndirectBrInst | InvokeInst
  | CallBrInst | UnreachableInst | CallInst | AllocaInst | LoadInst | StoreInst
  | GetElementPtrInst | CmpInst | BinaryOperator | CastInst | PHINode
  | SelectInst.

Global Instance InstClass_eq_dec : EqDecision InstClass.
Proof. solve_decision. Defined.

(** The read accessors of the IR the pass relies on. *)
Record IR := {
  (** [isa<Instruction>(user)] *)
  isa_Instruction : User → bool;
  (** the dynamic class of an instruction *)
  instClass : Instruction → InstClass;
  (** [Inst->getParent()] *)
  getParent : Instruction → BasicBlock;
  (** the operand list of a user, [getOperand(0)] first *)
  operands : User → list Value;
  (** [call->getCalledFunction()], [None] for a null result *)
  getCalledFunction : Instruction → option Function;
  (** [calledFunc->getName()] *)
  getName : Function → string;
  (** [v->users()], in use-list order *)
  users : Value → list User;
  (** [Inst->getDebugLoc()], [None] when it converts to a null [DILocation *] *)
  getDebugLoc : Instruction → option DILocation;
  (** [Loc->getLine()] *)
  getLine : DILocation → N;
  (** the blocks of a function, in layout order *)
  basicBlocks : Function → list BasicBlock;
  (** the instructions of a block, in order *)
  blockInsts : BasicBlock → list Instruction
}.

(** ** The diagnostic stream

    [errs()] receives a sequence of [<<] operands: string literals,
    [StringRef]s, unsigned numbers and values (rendered by LLVM's printer,
    which is not part of the pass). *)
Inductive Token :=
  | Str (s : string)
  | Unsigned (n : N)
  | Val (v : Value).

Global Instance Token_eq_dec : EqDecision Token.
Proof. solve_decision. Defined.

Definition endl : string := String (Ascii.ascii_of_nat 10) EmptyString.

(** ** The pass object

    The two member containers, together with what has been written to
    [errs()] so far. *)
Record PassState := mkPassState {
  inputVariables : gset positive;
  keyPointDependencies : gmap positive (gset positive);
  errs : list Token
}.

(** A freshly constructed pass. *)
Definition newPass : PassState := mkPassState ∅ ∅ [].

(** Member functions run in a state monad over [PassState]. *)
Definition M (A : Type) : Type := PassState → A * PassState.

Global Instance M_ret : MRet M := λ A a st, (a, st).
Global Instance M_bind : MBind M := λ A B f m st, let (a, st') := m st in f a st'.

Definition get_state : M PassState := λ st, (st, st).
Definition set_inputVariables (s : gset positive) : M unit :=
  λ st, ((), mkPassState s (keyPointDependencies st) (errs st)).
Definition set_keyPointDependencies (m : gmap positive (gset positive)) : M unit :=
  λ st, ((), mkPassState (inputVariables st) m (errs st)).
(** [errs() << t1 << t2 << ...] *)
Definition out (ts : list Token) : M unit :=
  λ st, ((), mkPassState (inputVariables st) (keyPointDependencies st) (errs st ++ ts)).

Definition exec {A} (m : M A) (st : PassState) : PassState := (m st).2.
Definition eval {A} (m : M A) (st : PassState) : A := (m st).1.

(** A range-based [for] loop without early exit. *)
Fixpoint for_each {A} (l : list A) (body : A → M unit) : M unit :=
  match l with
  | [] => mret ()
  | x :: l' => body x ;; for_each l' body
  end.

(** A range-based [for] loop updating a local variable. *)
Fixpoint for_each_acc {A B} (l : list A) (body : B → A → M B) (acc : B) : M B :=
  match l with
  | [] => mret acc
  | x :: l' => acc' ← body acc x; for_each_acc l' body acc'
  end.

(** Iteration over a [std::set<T *>] visits the addresses in increasing
    order; iteration over a [std::map<K *, V>] visits the entries by
    increasing key. *)
Definition set_iter (s : gset positive) : list positive :=
  merge_sort Pos.le (elements s).

Definition key_le (a b : positive * gset positive) : Prop := (a.1 ≤ b.1)%positive.

Global Instance key_le_dec : RelDecision key_le.
Proof. intros a b. unfold key_le. apply _. Defined.

Definition map_iter (m : gmap positive (gset positive)) : list (positive * gset positive) :=
  merge_sort key_le (map_to_list m).

Section Pass.
Context (ir : IR).

(** *** Casts and operand access *)

Definition isa_BranchInst (Inst : Instruction) : bool :=
  bool_decide (instClass ir Inst = BranchInst).
Definition isa_CallInst (Inst : Instruction) : bool :=
  bool_decide (instClass ir Inst = CallInst).

Definition dyn_cast_CallInst (Inst : Instruction) : option Instruction :=
  if isa_CallInst Inst then Some Inst else None.
Definition dyn_cast_Instruction (user : User) : option Instruction :=
  if isa_Instruction ir user then Some user else None.

Definition getNumOperands (U : User) : nat := length (operands ir U).
Definition getOperand (U : User) (i : nat) : option Value := operands ir U !! i.

(** *** Step 1: [detectInputVariables] *)

Definition detectInputVariables (F : Function) : M unit :=
  for_each (basicBlocks ir F) (λ BB,
    for_each (blockInsts ir BB) (λ Inst,
      match dyn_cast_CallInst Inst with
      | Some call =>
        match getCalledFunction ir call with
        | Some calledFunc =>
          if String.eqb (getName ir calledFunc) "scanf" then
            for_each (seq 1 (getNumOperands call - 1)) (λ i,
              match getOperand call i with
              | Some arg =>
                st ← get_state;
                set_inputVariables ({[arg]} ∪ inputVariables st);;
                out [Str "Detected input variable from scanf: "; Val arg; Str endl]
              | None => mret () (* not reached: i < getNumOperands *)
              end)
          else mret ()
        | None => mret ()
        end
      | None => mret ()
      end)).

(** *** [isKeyPoint] *)

Definition isKeyPoint (Inst : Instruction) : M bool :=
  mret (isa_BranchInst Inst || isa_CallInst Inst).

(** *** [isDependentOn] *)

(** The loop over [inputVar->users()], leaving at the first hit. *)
Fixpoint isDependentOn_loop (Inst : Instruction) (us : list User) : bool :=
  match us with
  | [] => false
  | user :: rest =>
    if Pos.eqb user Inst then true
    else match dyn_cast_Instruction user with
         | Some userInst =>
           if Pos.eqb (getParent ir userInst) (getParent ir Inst) then true
           else isDependentOn_loop Inst rest
         | None => isDependentOn_loop Inst rest
         end
  end.

Definition isDependentOn (Inst : Instruction) (inputVar : Value) : M bool :=
  mret (isDependentOn_loop Inst (users ir inputVar)).

(** *** Step 2: [analyzeInputInfluence] *)

Definition analyzeInputInfluence (F : Function) : M unit :=
  for_each (basicBlocks ir F) (λ BB,
    for_each (blockInsts ir BB) (λ Inst,
      kp ← isKeyPoint Inst;
      if kp : bool then
        st ← get_state;
        influencingInputs ←
          for_each_acc (set_iter (inputVariables st)) (λ acc inputVar,
            dep ← isDependentOn Inst inputVar;
            mret (if dep : bool then {[inputVar]} ∪ acc else acc)) (∅ : gset positive);
        st' ← get_state;
        set_keyPointDependencies (<[Inst := influencingInputs]> (keyPointDependencies st'))
      else mret ())).

(** *** [getLineNumber] *)

Definition getLineNumber (Inst : Instruction) : M N :=
  match getDebugLoc ir Inst with
  | Some Loc => mret (getLine ir Loc)
  | None => mret 0%N
  end.

(** *** Step 3: [printResults] *)

Definition printResults (F : Function) : M unit :=
  out [Str "=== Seminal Input Analysis Results for Function: ";
       Str (getName ir F); Str " ==="; Str endl];;
  st ← get_state;
  for_each (map_iter (keyPointDependencies st)) (λ '(inst, inputs),
    line ← getLineNumber inst;
    if negb (bool_decide (inputs = ∅)) then
      out [Str "Line "; Unsigned line; Str ": Influenced by inputs: "];;
      for_each (set_iter inputs) (λ input, out [Val input; Str " "]);;
      out [Str endl]
    else mret ());;
  out [Str "============================================="; Str endl].

(** *** [runOnFunction] *)

Definition runOnFunction (F : Function) : M bool :=
  out [Str "Analyzing function: "; Str (getName ir F); Str endl];;
  set_inputVariables ∅;;
  set_keyPointDependencies ∅;;
  detectInputVariables F;;
  analyzeInputInfluence F;;
  printResults F;;
  mret false.

End Pass.

(** * Vocabulary for the statements *)

Section Vocabulary.
Context (ir : IR).

(** The instructions of a function in the order the two nested loops
    visit them. *)
Definition instructions (F : Function) : list Instruction :=
  flat_map (blockInsts ir) (basicBlocks ir F).

(** A call instruction for which [getCalledFunction()] returns a function
    named [scanf]. *)
Definition is_scanf_call (Inst : Instruction) : Prop :=
  instClass ir Inst = CallInst ∧
  ∃ f, getCalledFunction ir Inst = Some f ∧ getName ir f = "scanf".

Definition is_scanf_callb (Inst : Instruction) : bool :=
  isa_CallInst ir Inst &&
  match getCalledFunction ir Inst with
  | Some f => bool_decide (getName ir f = "scanf")
  | None => false
  end.

(** The operands at indices [1 .. getNumOperands - 1]. *)
Definition operands_from_1 (Inst : Instruction) : list Value :=
  drop 1 (operands ir Inst).

(** What one instruction contributes to the input set. *)
Definition contribution (Inst : Instruction) : list Value :=
  if is_scanf_callb Inst then operands_from_1 Inst else [].

(** The diagnostic written for one detected value. *)
Definition detected_line (arg : Value) : list Token :=
  [Str "Detected input variable from scanf: "; Val arg; Str endl].

(** The state after inserting the values [l] one after the other. *)
Definition with_inputs (l : list Value) (st : PassState) : PassState :=
  mkPassState (inputVariables st ∪ list_to_set l)
              (keyPointDependencies st)
              (errs st ++ flat_map detected_line l).

(** The result of the dependency test, as a predicate. *)
Definition dependsOn (Inst : Instruction) (v : Value) : bool :=
  eval (isDependentOn ir Inst v) newPass.

(** The key-point classification, as a predicate. *)
Definition keyPoint (Inst : Instruction) : bool :=
  eval (isKeyPoint ir Inst) newPass.

(** The members of [ins] the instruction is judged to depend on. *)
Definition influencing (ins : gset positive) (Inst : Instruction) : gset positive :=
  filter (λ v, dependsOn Inst v = true) ins.

(** The map after the instruction loop of step 2 has visited [l]. *)
Definition with_key_points (ins : gset positive) (l : list Instruction)
    (m : gmap positive (gset positive)) : gmap positive (gset positive) :=
  foldl (λ m Inst, if keyPoint Inst then <[Inst := influencing ins Inst]> m else m) m l.

(** Every operand of an instruction of [F] lists that instruction among
    its users. *)
Definition operands_are_used (F : Function) : Prop :=
  ∀ Inst v, Inst ∈ instructions F → v ∈ operands ir Inst → Inst ∈ users ir v.

Definition operands_are_usedb (F : Function) : bool :=
  forallb (λ Inst,
    forallb (λ v, bool_decide (Inst ∈ users ir v)) (operands ir Inst))
    (instructions F).

(** The state after writing [ts] to [errs()]. *)
Definition with_output (ts : list Token) (st : PassState) : PassState :=
  mkPassState (inputVariables st) (keyPointDependencies st) (errs st ++ ts).

(** What [getLineNumber] returns. *)
Definition lineNumber (Inst : Instruction) : N :=
  eval (getLineNumber ir Inst) newPass.

(** The report line of one map entry. *)
Definition report_line (entry : positive * gset positive) : list Token :=
  [Str "Line "; Unsigned (lineNumber entry.1);
   Str ": Influenced by inputs: "]
  ++ flat_map (λ input, [Val input; Str " "]) (set_iter entry.2)
  ++ [Str endl].

Definition report_header (F : Function) : list Token :=
  [Str "=== Seminal Input Analysis Results for Function: ";
   Str (getName ir F); Str " ==="; Str endl].

Definition report_footer : list Token :=
  [Str "============================================="; Str endl].

(** The number of line ends in a piece of output. *)
Definition line_ends (ts : list Token) : nat :=
  length (filter (λ t, t = Str endl) ts).

(** The entries the report shows. *)
Definition reported (m : gmap positive (gset positive)) : list (positive * gset positive) :=
  filter (λ entry, entry.2 ≠ ∅) (map_iter m).

(** The containers and the output of one whole run. *)
Definition inputSet (F : Function) : gset positive :=
  list_to_set (flat_map contribution (instructions F)).

Definition keyPointMap (F : Function) : gmap positive (gset positive) :=
  with_key_points (inputSet F) (instructions F) ∅.

Definition run_output (F : Function) : list Token :=
  [Str "Analyzing function: "; Str (getName ir F); Str endl]
  ++ flat_map detected_line (flat_map contribution (instructions F))
  ++ report_header F
  ++ flat_map report_line (reported (keyPointMap F))
  ++ report_footer.
End Vocabulary.

(** * A small module to run the pass on

    [main] reads the global [@x] with [scanf], tests it and calls [puts]
    in one arm; [read_two] reads into its two arguments.

<<
    @x = global i32 0                                       ; 70
    define i32 @main() {                                    ; function 1
    entry:                                                  ; block 10
      call i32 (ptr, ...) @scanf(ptr @fmt, ptr @x)          ; 101, line 5
      %v = load i32, ptr @x                                 ; 102
      %c = trunc i32 %v to i1                               ; 103
      br i1 %c, label %then, label %done                    ; 104, line 6
    then:                                                   ; block 11
      call i32 @puts(ptr @msg)                              ; 110, line 7
      br label %done                                        ; 111
    done:                                                   ; block 12
      ret i32 %v                                            ; 120
    }
    define void @read_two(ptr %a, ptr %b) {                 ; function 4
    body:                                                   ; block 20
      call i32 (ptr, ...) @scanf(ptr @fmt2, ptr %a, ptr %b) ; 212
      ret void                                              ; 213
    }
>>
    [@scanf] is 2, [@puts] is 3, [@fmt], [@msg] and [@fmt2] are 50, 51 and
    52, the arguments [%a] and [%b] are 210 and 211.  The operands of a
    call are its arguments followed by the called function; those of a
    conditional [br] are the condition, the false target and the true
    target. *)

Module Example.
Definition main : Function := 1.
Definition read_two : Function := 4.

Definition ir : IR := {|
  isa_Instruction u :=
    bool_decide (u ∈ [101; 102; 103; 104; 110; 111; 120; 212; 213]%positive);
  instClass i :=
    match i with
    | 101 | 110 | 212 => CallInst
    | 102 => LoadInst
    | 103 => CastInst
    | 104 | 111 => BranchInst
    | _ => ReturnInst
    end%positive;
  getParent i :=
    match i with
    | 101 | 102 | 103 | 104 => 10
    | 110 | 111 => 11
    | 120 => 12
    | _ => 20
    end%positive;
  operands u :=
    match u with
    | 101 => [50; 70; 2]
    | 102 => [70]
    | 103 => [102]
    | 104 => [103; 12; 11]
    | 110 => [51; 3]
    | 111 => [12]
    | 120 => [102]
    | 212 => [52; 210; 211; 2]
    | _ => []
    end%positive;
  getCalledFunction i :=
    match i with
    | 101 | 212 => Some 2
    | 110 => Some 3
    | _ => None
    end%positive;
  getName f :=
    match f with
    | 1 => "main"
    | 2 => "scanf"
    | 3 => "puts"
    | 4 => "read_two"
    | _ => EmptyString
    end%positive;
  users v :=
    match v with
    | 2 => [212; 101]
    | 3 => [110]
    | 11 => [104]
    | 12 => [111; 104]
    | 50 => [101]
    | 51 => [110]
    | 52 => [212]
    | 70 => [102; 101]
    | 102 => [120; 103]
    | 103 => [104]
    | 210 | 211 => [212]
    | _ => []
    end%positive;
  getDebugLoc i :=
    match i with
    | 101 => Some 901
    | 104 => Some 902
    | 110 => Some 903
    | _ => None
    end%positive;
  getLine l :=
    match l with
    | 901%positive => 5%N
    | 902%positive => 6%N
    | 903%positive => 7%N
    | _ => 0%N
    end;
  basicBlocks f :=
    match f with
    | 1 => [10; 11; 12]
    | 4 => [20]
    | _ => []
    end%positive;
  blockInsts b :=
    match b with
    | 10 => [101; 102; 103; 104]
    | 11 => [110; 111]
    | 12 => [120]
    | 20 => [212; 213]
    | _ => []
    end%positive
|}.
End Example.

(** * Further vocabulary *)

(** The same IR with another enumeration of the users of each value. *)
Definition with_users (ir : IR) (us : Value → list User) : IR := {|
  isa_Instruction := isa_Instruction ir;
  instClass := instClass ir;
  getParent := getParent ir;
  operands := operands ir;
  getCalledFunction := getCalledFunction ir;
  getName := getName ir;
  users := us;
  getDebugLoc := getDebugLoc ir;
  getLine := getLine ir;
  basicBlocks := basicBlocks ir;
  blockInsts := blockInsts ir
|}.

(** The values a piece of output shows, in order. *)
Definition printed_values (ts : list Token) : list Value :=
  flat_map (λ t, match t with Val v => [v] | _ => [] end) ts.

(** The line [runOnFunction] starts with. *)
Definition banner (ir : IR) (F : Function) : list Token :=
  [Str "Analyzing function: "; Str (getName ir F); Str endl].

(** A function without input: it calls [puts], and [scanf] without any
    argument.

<<
    define void @greet() {                  ; function 6
    entry:                                  ; block 30
      call i32 @puts(ptr @msg)              ; 300
      call i32 @scanf()                     ; 301
      br label %out                         ; 302
    out:                                    ; block 31
      ret void                              ; 310
    }
>>
    [@scanf] is 2, [@puts] is 3, [@msg] is 51. *)
Module Quiet.
Definition greet : Function := 6.

Definition ir : IR := {|
  isa_Instruction u := bool_decide (u ∈ [300; 301; 302; 310]%positive);
  instClass i :=
    match i with
    | 300 | 301 => CallInst
    | 302 => BranchInst
    | _ => ReturnInst
    end%positive;
  getParent i :=
    match i with
    | 300 | 301 | 302 => 30
    | _ => 31
    end%positive;
  operands u :=
    match u with
    | 300 => [51; 3]
    | 301 => [2]
    | 302 => [31]
    | _ => []
    end%positive;
  getCalledFunction i :=
    match i with
    | 300 => Some 3
    | 301 => Some 2
    | _ => None
    end%positive;
  getName f :=
    match f with
    | 2 => "scanf"
    | 3 => "puts"
    | 6 => "greet"
    | _ => EmptyString
    end%positive;
  users v :=
    match v with
    | 2 => [301]
    | 3 => [300]
    | 31 => [302]
    | 51 => [300]
    | _ => []
    end%positive;
  getDebugLoc i := None;
  getLine l := 0%N;
  basicBlocks f :=
    match f with
    | 6 => [30; 31]
    | _ => []
    end%positive;
  blockInsts b :=
    match b with
    | 30 => [300; 301; 302]
    | 31 => [310]
    | _ => []
    end%positive
|}.
End Quiet.

(** A call that hands [scanf] a null pointer, a constant without use
    list.

<<
    define void @probe() {                           ; function 7
    only:                                            ; block 40
      call i32 (ptr, ...) @scanf(ptr @fmt, ptr null) ; 400
      ret void                                       ; 401
    }
>>
    [@scanf] is 2, [@fmt] is 50, [null] is 62. *)
Module NullArgument.
Definition probe : Function := 7.

Definition ir : IR := {|
  isa_Instruction u := bool_decide (u ∈ [400; 401]%positive);
  instClass i :=
    match i with
    | 400 => CallInst
    | _ => ReturnInst
    end%positive;
  getParent i := 40%positive;
  operands u :=
    match u with
    | 400 => [50; 62; 2]
    | _ => []
    end%positive;
  getCalledFunction i :=
    match i with
    | 400 => Some 2
    | _ => None
    end%positive;
  getName f :=
    match f with
    | 2 => "scanf"
    | 7 => "probe"
    | _ => EmptyString
    end%positive;
  users v :=
    match v with
    | 2 | 50 => [400]
    | _ => []
    end%positive;
  getDebugLoc i := None;
  getLine l := 0%N;
  basicBlocks f :=
    match f with
    | 7 => [40]
    | _ => []
    end%positive;
  blockInsts b :=
    match b with
    | 40 => [400; 401]
    | _ => []
    end%positive
|}.
End NullArgument.

(** * Running the monad *)

Lemma exec_bind {A B} (m : M A) (k : A → M B) st :
  exec (m ≫= k) st = exec (k (eval m st)) (exec m st).
Proof. unfold exec, eval, mbind, M_bind. by destruct (m st). Qed.

Lemma eval_bind {A B} (m : M A) (k : A → M B) st :
  eval (m ≫= k) st = eval (k (eval m st)) (exec m st).
Proof. unfold exec, eval, mbind, M_bind. by destruct (m st). Qed.

Lemma exec_ret {A} (a : A) st : exec (mret a) st = st.
Proof. done. Qed.

Lemma eval_ret {A} (a : A) st : eval (mret a) st = a.
Proof. done. Qed.

(** Closed decidable facts about the example module. *)
Ltac decide_by_compute :=
  apply (bool_decide_unpack _); vm_compute; exact I.

Ltac run_monad :=
  unfold exec, eval, mbind, M_bind, mret, M_ret, get_state,
    set_inputVariables, set_keyPointDependencies, out; cbn.

Lemma foldl_ext_in {A B} (f g : A → B → A) (l : list B) (a : A) :
  (∀ s x, x ∈ l → f s x = g s x) → foldl f a l = foldl g a l.
Proof.
  revert a. induction l as [|x l IH]; intros a Hfg; [done|].
  cbn [foldl]. rewrite Hfg by left. apply IH. intros s y Hy. apply Hfg. by right.
Qed.

Lemma elem_of_flat_map {A B} (f : A → list B) (l : list A) (x : B) :
  x ∈ flat_map f l ↔ ∃ y, y ∈ l ∧ x ∈ f y.
Proof.
  rewrite list_elem_of_In, in_flat_map. setoid_rewrite list_elem_of_In. done.
Qed.

(** A loop is the left fold of its body over the state. *)
Lemma exec_for_each {A} (l : list A) (body : A → M unit) st :
  exec (for_each l body) st = foldl (λ s x, exec (body x) s) st l.
Proof.
  revert st. induction l as [|x l IH]; intros st; [done|].
  change (for_each (x :: l) body) with (body x ≫= λ _, for_each l body).
  rewrite exec_bind. apply IH.
Qed.

(** The two nested loops over blocks and their instructions visit the
    instructions of the function in order. *)
Lemma exec_for_each_nested {A B} (outer : list B) (inner : B → list A)
    (body : A → M unit) st :
  exec (for_each outer (λ b, for_each (inner b) body)) st
  = exec (for_each (flat_map inner outer) body) st.
Proof.
  rewrite !exec_for_each. revert st.
  induction outer as [|b outer IH]; intros st; [done|].
  cbn [flat_map foldl]. by rewrite foldl_app, IH, exec_for_each.
Qed.

(** A loop with a local accumulator whose body leaves the pass alone. *)
Lemma for_each_acc_pure {A B} (l : list A) (f : B → A → B) (acc : B) st :
  for_each_acc l (λ acc x, mret (f acc x)) acc st = (foldl f acc l, st).
Proof.
  revert acc. induction l as [|x l IH]; intros acc; [done|].
  change (for_each_acc (x :: l) (λ acc x, mret (f acc x)) acc st)
    with (for_each_acc l (λ acc x, mret (f acc x)) (f acc x) st).
  apply IH.
Qed.

(** * Sorted iteration visits exactly the members *)

Lemma elem_of_set_iter (s : gset positive) (x : positive) :
  x ∈ set_iter s ↔ x ∈ s.
Proof. unfold set_iter. by rewrite merge_sort_Permutation, elem_of_elements. Qed.

Lemma elem_of_map_iter (m : gmap positive (gset positive)) k s :
  (k, s) ∈ map_iter m ↔ m !! k = Some s.
Proof. unfold map_iter. by rewrite merge_sort_Permutation, elem_of_map_to_list. Qed.

Lemma NoDup_map_iter_keys (m : gmap positive (gset positive)) :
  NoDup (map_iter m).*1.
Proof.
  unfold map_iter. rewrite merge_sort_Permutation. apply NoDup_fst_map_to_list.
Qed.

(** * Step 1: detection *)

Section Detection.
Context (ir : IR).

Lemma is_scanf_callb_spec Inst :
  is_scanf_callb ir Inst = true ↔ is_scanf_call ir Inst.
Proof.
  unfold is_scanf_callb, is_scanf_call, isa_CallInst.
  rewrite andb_true_iff, bool_decide_eq_true.
  destruct (getCalledFunction ir Inst) as [f|].
  - rewrite bool_decide_eq_true. naive_solver.
  - naive_solver.
Qed.

Lemma with_inputs_nil st : with_inputs [] st = st.
Proof.
  destruct st as [iv kd e]. unfold with_inputs; cbn.
  f_equal; [set_solver|apply app_nil_r].
Qed.

Lemma with_inputs_app l1 l2 st :
  with_inputs l2 (with_inputs l1 st) = with_inputs (l1 ++ l2) st.
Proof.
  destruct st as [iv kd e]. unfold with_inputs; cbn. f_equal.
  - rewrite list_to_set_app_L. set_solver.
  - by rewrite flat_map_app, app_assoc.
Qed.

(** The counted loop [for (i = k; i < getNumOperands(); ++i)] inserts the
    operands from index [k] on, in order. *)
Lemma exec_operand_loop call k st :
  exec (for_each (seq k (getNumOperands ir call - k)) (λ i,
          match getOperand ir call i with
          | Some arg =>
            st ← get_state;
            set_inputVariables ({[arg]} ∪ inputVariables st);;
            out [Str "Detected input variable from scanf: "; Val arg; Str endl]
          | None => mret ()
          end)) st
  = with_inputs (drop k (operands ir call)) st.
Proof.
  unfold getNumOperands, getOperand.
  remember (length (operands ir call) - k) as n eqn:Hn.
  revert k st Hn. induction n as [|n IH]; intros k st Hn.
  - rewrite drop_ge by lia. by rewrite with_inputs_nil.
  - destruct (lookup_lt_is_Some_2 (operands ir call) k) as [arg Harg]; [lia|].
    rewrite (drop_S _ _ _ Harg). cbn [seq].
    rewrite exec_for_each. cbn [foldl]. rewrite <- exec_for_each.
    rewrite Harg, IH by lia.
    change (arg :: drop (S k) (operands ir call))
      with ([arg] ++ drop (S k) (operands ir call)).
    rewrite <- with_inputs_app. f_equal.
    destruct st as [iv kd e]. run_monad. unfold with_inputs; cbn.
    f_equal. set_solver.
Qed.

(** The whole of step 1: the contributions of the instructions, in
    program order, are added to the input set and announced. *)
Lemma exec_detectInputVariables F st :
  exec (detectInputVariables ir F) st
  = with_inputs (flat_map (contribution ir) (instructions ir F)) st.
Proof.
  unfold detectInputVariables. rewrite exec_for_each_nested, exec_for_each.
  fold (instructions ir F). generalize (instructions ir F) as l.
  intros l. revert st. induction l as [|Inst l IH]; intros st.
  - by rewrite with_inputs_nil.
  - cbn [foldl flat_map]. rewrite IH, <- with_inputs_app. f_equal.
    unfold contribution, is_scanf_callb, dyn_cast_CallInst.
    destruct (isa_CallInst ir Inst); cbn [andb];
      [|by rewrite with_inputs_nil].
    destruct (getCalledFunction ir Inst) as [f|]; [|by rewrite with_inputs_nil].
    destruct (String.eqb_spec (getName ir f) "scanf") as [Heq|Hne].
    + rewrite bool_decide_eq_true_2 by done. apply exec_operand_loop.
    + rewrite bool_decide_eq_false_2 by done. by rewrite with_inputs_nil.
Qed.

Lemma elem_of_contribution Inst v :
  v ∈ contribution ir Inst ↔
  is_scanf_call ir Inst ∧
  ∃ i, 1 ≤ i < getNumOperands ir Inst ∧ getOperand ir Inst i = Some v.
Proof.
  unfold contribution, operands_from_1, getNumOperands, getOperand.
  destruct (is_scanf_callb ir Inst) eqn:Hc.
  - apply is_scanf_callb_spec in Hc. rewrite list_elem_of_lookup. split.
    + intros [j Hj]. rewrite lookup_drop in Hj. split; [done|].
      exists (1 + j). split; [|done]. apply lookup_lt_Some in Hj. lia.
    + intros [_ (i & Hi & Hv)]. exists (i - 1). rewrite lookup_drop.
      by replace (1 + (i - 1)) with i by lia.
  - rewrite elem_of_nil. split; [done|]. intros [Hs _].
    apply is_scanf_callb_spec in Hs. congruence.
Qed.
End Detection.

(** * Step 2: the dependency test and the influence map *)

Section Influence.
Context (ir : IR).

Lemma keyPoint_eq Inst :
  keyPoint ir Inst = isa_BranchInst ir Inst || isa_CallInst ir Inst.
Proof. done. Qed.

Lemma dependsOn_eq Inst v :
  dependsOn ir Inst v = isDependentOn_loop ir Inst (users ir v).
Proof. done. Qed.

(** Member functions that only compute leave the pass untouched. *)
Lemma isKeyPoint_run Inst st : isKeyPoint ir Inst st = (keyPoint ir Inst, st).
Proof. done. Qed.

Lemma isDependentOn_run Inst v st :
  isDependentOn ir Inst v st = (dependsOn ir Inst v, st).
Proof. done. Qed.

Lemma isDependentOn_loop_true Inst us :
  isDependentOn_loop ir Inst us = true ↔
  ∃ user, user ∈ us ∧
    (user = Inst ∨
     (isa_Instruction ir user = true ∧ getParent ir user = getParent ir Inst)).
Proof.
  induction us as [|user us IH]; cbn [isDependentOn_loop].
  - split; [done|]. intros (u & Hu & _). by apply elem_of_nil in Hu.
  - unfold dyn_cast_Instruction.
    destruct (Pos.eqb_spec user Inst) as [->|Hne].
    { split; [|done]. intros _. exists Inst. split; [left|by left]. }
    destruct (isa_Instruction ir user) eqn:Hisa.
    + destruct (Pos.eqb_spec (getParent ir user) (getParent ir Inst)) as [Hp|Hp].
      { split; [|done]. intros _. exists user. split; [left|by right]. }
      rewrite IH. split.
      * intros (u & Hu & H). exists u. split; [by right|done].
      * intros (u & Hu & H). apply elem_of_cons in Hu as [->|Hu]; [|by eauto].
        destruct H as [?|[_ ?]]; congruence.
    + rewrite IH. split.
      * intros (u & Hu & H). exists u. split; [by right|done].
      * intros (u & Hu & H). apply elem_of_cons in Hu as [->|Hu]; [|by eauto].
        destruct H as [?|[? _]]; congruence.
Qed.

(** The order in which the users are enumerated does not matter. *)
Lemma isDependentOn_loop_Permutation Inst us us' :
  us ≡ₚ us' → isDependentOn_loop ir Inst us = isDependentOn_loop ir Inst us'.
Proof.
  intros Hperm. apply eq_true_iff_eq. rewrite !isDependentOn_loop_true.
  by setoid_rewrite Hperm.
Qed.

(** The accumulating loop over the input set is a filter. *)
Lemma foldl_insert_if (P : positive → bool) (l : list positive) (acc : gset positive) :
  foldl (λ acc x, if P x then {[x]} ∪ acc else acc) acc l
  = acc ∪ list_to_set (filter (λ x, P x = true) l).
Proof.
  revert acc. induction l as [|x l IH]; intros acc; cbn [foldl].
  - set_solver.
  - rewrite IH. destruct (P x) eqn:HP.
    + rewrite filter_cons_True by done. set_solver.
    + rewrite filter_cons_False by congruence. done.
Qed.

Lemma exec_analyze_body Inst st :
  exec (kp ← isKeyPoint ir Inst;
        if kp : bool then
          st ← get_state;
          influencingInputs ←
            for_each_acc (set_iter (inputVariables st)) (λ acc inputVar,
              dep ← isDependentOn ir Inst inputVar;
              mret (if dep : bool then {[inputVar]} ∪ acc else acc)) (∅ : gset positive);
          st' ← get_state;
          set_keyPointDependencies (<[Inst := influencingInputs]> (keyPointDependencies st'))
        else mret ()) st
  = mkPassState (inputVariables st)
      (with_key_points ir (inputVariables st) [Inst] (keyPointDependencies st))
      (errs st).
Proof.
  unfold with_key_points. cbn [foldl].
  assert (Hloop : for_each_acc (set_iter (inputVariables st)) (λ acc inputVar,
              dep ← isDependentOn ir Inst inputVar;
              mret (if dep : bool then {[inputVar]} ∪ acc else acc)) (∅ : gset positive) st
            = (influencing ir (inputVariables st) Inst, st)).
  { etransitivity;
      [apply (for_each_acc_pure _
                (λ acc x, if dependsOn ir Inst x then {[x]} ∪ acc else acc))|].
    f_equal. rewrite foldl_insert_if. apply set_eq. intros v.
    unfold influencing.
    rewrite elem_of_union, elem_of_list_to_set, list_elem_of_filter,
      elem_of_set_iter, elem_of_filter.
    set_solver. }
  unfold exec, mbind, M_bind. rewrite isKeyPoint_run.
  destruct (keyPoint ir Inst); [|by destruct st].
  unfold mbind, M_bind in Hloop. unfold get_state at 1.
  rewrite Hloop. by destruct st.
Qed.

Lemma exec_analyzeInputInfluence F st :
  exec (analyzeInputInfluence ir F) st
  = mkPassState (inputVariables st)
      (with_key_points ir (inputVariables st) (instructions ir F)
         (keyPointDependencies st))
      (errs st).
Proof.
  unfold analyzeInputInfluence. rewrite exec_for_each_nested, exec_for_each.
  fold (instructions ir F).
  erewrite foldl_ext_in; [|intros s x _; apply exec_analyze_body].
  generalize (instructions ir F) as l. intros l. revert st.
  induction l as [|Inst l IH]; intros st; [by destruct st|].
  cbn [foldl]. rewrite IH. done.
Qed.

Lemma lookup_with_key_points ins l m Inst :
  with_key_points ir ins l m !! Inst
  = if decide (Inst ∈ l ∧ keyPoint ir Inst = true)
    then Some (influencing ir ins Inst) else m !! Inst.
Proof.
  unfold with_key_points.
  induction l as [|x l IH] using rev_ind.
  - cbn. case_decide as H; [|done]. destruct H as [H _]. by apply elem_of_nil in H.
  - rewrite foldl_snoc. destruct (keyPoint ir x) eqn:Hkp.
    + destruct (decide (x = Inst)) as [->|Hne].
      * rewrite lookup_insert_eq. rewrite decide_True; [done|].
        split; [|done]. rewrite elem_of_app, list_elem_of_singleton. by right.
      * rewrite lookup_insert_ne by done. rewrite IH.
        apply decide_ext. rewrite elem_of_app, list_elem_of_singleton. naive_solver.
    + rewrite IH. apply decide_ext.
      rewrite elem_of_app, list_elem_of_singleton. split.
      * intros [? ?]. split; [by left|done].
      * intros [[?| ->] ?]; [done|congruence].
Qed.
End Influence.

(** * Step 3: the report *)

Section Report.
Context (ir : IR).

Lemma getLineNumber_run Inst st :
  getLineNumber ir Inst st = (lineNumber ir Inst, st).
Proof.
  unfold lineNumber, getLineNumber, eval. by destruct (getDebugLoc ir Inst).
Qed.

Lemma with_output_nil st : with_output [] st = st.
Proof. destruct st. unfold with_output; cbn. by rewrite app_nil_r. Qed.

Lemma with_output_app ts1 ts2 st :
  with_output ts2 (with_output ts1 st) = with_output (ts1 ++ ts2) st.
Proof. unfold with_output; cbn. by rewrite app_assoc. Qed.

Lemma exec_out ts st : exec (out ts) st = with_output ts st.
Proof. done. Qed.

(** A loop that only prints. *)
Lemma exec_for_each_out {A} (l : list A) (g : A → list Token) st :
  exec (for_each l (λ x, out (g x))) st = with_output (flat_map g l) st.
Proof.
  rewrite exec_for_each. revert st.
  induction l as [|x l IH]; intros st; cbn [foldl flat_map].
  - by rewrite with_output_nil.
  - by rewrite IH, exec_out, with_output_app.
Qed.

Lemma flat_map_if_filter {A B} (P : A → Prop) `{!∀ x, Decision (P x)}
    (g : A → list B) (l : list A) :
  flat_map (λ x, if decide (P x) then g x else []) l = flat_map g (filter P l).
Proof.
  induction l as [|x l IH]; [done|]. cbn [flat_map]. rewrite IH.
  destruct (decide (P x)).
  - by rewrite filter_cons_True.
  - by rewrite filter_cons_False.
Qed.

Lemma exec_printResults F st :
  exec (printResults ir F) st
  = with_output (report_header ir F
                 ++ flat_map (report_line ir) (reported (keyPointDependencies st))
                 ++ report_footer) st.
Proof.
  unfold printResults. rewrite exec_bind, exec_out, exec_bind.
  change (eval get_state ?s) with s. change (exec get_state ?s) with s.
  rewrite exec_bind, exec_out.
  change (keyPointDependencies (with_output _ st)) with (keyPointDependencies st).
  rewrite <- (with_output_app _ (_ ++ _)), <- with_output_app. f_equal.
  fold (report_header ir F).
  generalize (with_output (report_header ir F) st) as st1. intros st1.
  unfold reported. rewrite <- flat_map_if_filter.
  rewrite <- (exec_for_each_out (map_iter (keyPointDependencies st))).
  rewrite !exec_for_each. apply foldl_ext_in. intros s [inst inputs] _.
  unfold exec at 1, mbind, M_bind. rewrite getLineNumber_run.
  cbn [snd]. destruct (decide (inputs = ∅)) as [->|Hne].
  - rewrite bool_decide_eq_true_2 by done. cbn [negb].
    rewrite decide_False by (by intros []). by rewrite exec_out, with_output_nil.
  - rewrite bool_decide_eq_false_2 by done. cbn [negb].
    rewrite decide_True by done. rewrite exec_out.
    unfold report_line. cbn [fst snd].
    rewrite <- !with_output_app.
    pose proof (exec_for_each_out (set_iter inputs)
                  (λ input, [Val input; Str " "])) as Hin.
    unfold exec in Hin. unfold out at 1.
    destruct (for_each (set_iter inputs) _ _) as [[] s'] eqn:Hrun.
    specialize (Hin (with_output [Str "Line "; Unsigned (lineNumber ir inst);
                                  Str ": Influenced by inputs: "] s)).
    unfold with_output at 1 in Hin. rewrite Hrun in Hin. cbn in Hin. by subst s'.
Qed.
End Report.

(** * One whole run *)

Section Run.
Context (ir : IR).

Lemma exec_runOnFunction F st :
  exec (runOnFunction ir F) st
  = mkPassState (inputSet ir F) (keyPointMap ir F) (errs st ++ run_output ir F).
Proof.
  unfold runOnFunction.
  rewrite exec_bind, exec_out, exec_bind.
  change (exec (set_inputVariables ∅) ?s)
    with (mkPassState ∅ (keyPointDependencies s) (errs s)).
  rewrite exec_bind.
  change (exec (set_keyPointDependencies ∅) ?s)
    with (mkPassState (inputVariables s) ∅ (errs s)).
  rewrite exec_bind, exec_detectInputVariables.
  rewrite exec_bind, exec_analyzeInputInfluence.
  rewrite exec_bind, exec_printResults, exec_ret.
  unfold with_output, with_inputs, run_output, keyPointMap, inputSet; cbn.
  f_equal.
  - by rewrite (left_id_L ∅ (∪)).
  - by rewrite (left_id_L ∅ (∪)).
  - rewrite (left_id_L ∅ (∪)). by rewrite <- !app_assoc.
Qed.

Lemma eval_runOnFunction F st : eval (runOnFunction ir F) st = false.
Proof.
  unfold runOnFunction. rewrite !eval_bind. done.
Qed.

Lemma elem_of_inputSet F v :
  v ∈ inputSet ir F ↔
  ∃ call i, call ∈ instructions ir F ∧ is_scanf_call ir call ∧
            1 ≤ i < getNumOperands ir call ∧ getOperand ir call i = Some v.
Proof.
  unfold inputSet. rewrite elem_of_list_to_set, elem_of_flat_map.
  setoid_rewrite elem_of_contribution. naive_solver.
Qed.

Lemma lookup_keyPointMap F Inst :
  keyPointMap ir F !! Inst
  = if decide (Inst ∈ instructions ir F ∧ keyPoint ir Inst = true)
    then Some (influencing ir (inputSet ir F) Inst) else None.
Proof. unfold keyPointMap. by rewrite lookup_with_key_points, lookup_empty. Qed.
End Run.

(** * The dependency test *)

Section DependencyTest.
Context (ir : IR).

Lemma elem_of_influencing ins Inst v :
  v ∈ influencing ir ins Inst ↔ v ∈ ins ∧ dependsOn ir Inst v = true.
Proof. unfold influencing. rewrite elem_of_filter. tauto. Qed.

(** After a run, a key point of the function is mapped to the members of
    the input set that pass the dependency test. *)
Lemma runOnFunction_records F st Inst v :
  Inst ∈ instructions ir F →
  keyPoint ir Inst = true →
  v ∈ inputVariables (exec (runOnFunction ir F) st) →
  dependsOn ir Inst v = true →
  ∃ s, keyPointDependencies (exec (runOnFunction ir F) st) !! Inst = Some s ∧ v ∈ s.
Proof.
  rewrite exec_runOnFunction. cbn [inputVariables keyPointDependencies].
  intros HF Hkp Hv Hdep. rewrite lookup_keyPointMap, decide_True by done.
  eexists. split; [done|]. by apply elem_of_influencing.
Qed.

(** C1. [isDependentOn(Inst, v)] returns true exactly when some user of
    [v] is [Inst] itself or is an instruction whose parent block is the
    parent block of [Inst], and false when no user is; it does not touch
    the pass.  Consequently (P3) a key point [Inst] of the analysed
    function has every input value [v] with a user in the block of
    [Inst] in its recorded set, whichever instruction of the block that
    user is. *)
Theorem isDependentOn_self_or_same_block (Inst : Instruction) (v : Value) :
  (∀ st, eval (isDependentOn ir Inst v) st = true ↔
     ∃ user, user ∈ users ir v ∧
       (user = Inst ∨
        (isa_Instruction ir user = true ∧ getParent ir user = getParent ir Inst)))
  ∧ (∀ st, eval (isDependentOn ir Inst v) st = false ↔
     ∀ user, user ∈ users ir v →
       user ≠ Inst ∧
       ¬ (isa_Instruction ir user = true ∧ getParent ir user = getParent ir Inst))
  ∧ (∀ st, exec (isDependentOn ir Inst v) st = st)
  ∧ (∀ F st user,
       Inst ∈ instructions ir F →
       eval (isKeyPoint ir Inst) st = true →
       v ∈ inputVariables (exec (runOnFunction ir F) st) →
       user ∈ users ir v →
       isa_Instruction ir user = true →
       getParent ir user = getParent ir Inst →
       ∃ s, keyPointDependencies (exec (runOnFunction ir F) st) !! Inst = Some s
            ∧ v ∈ s).
Proof.
  assert (Htrue : ∀ st, eval (isDependentOn ir Inst v) st = true ↔
     ∃ user, user ∈ users ir v ∧
       (user = Inst ∨
        (isa_Instruction ir user = true ∧ getParent ir user = getParent ir Inst))).
  { intros st. unfold eval. rewrite isDependentOn_run. cbn [fst].
    rewrite dependsOn_eq. apply isDependentOn_loop_true. }
  split; [exact Htrue|]. split; [|split].
  - intros st. rewrite <- not_true_iff_false, Htrue. split.
    + intros Hno user Hu. split.
      * intros ->. apply Hno. exists Inst. by split; [|left].
      * intros Hsame. apply Hno. exists user. by split; [|right].
    + intros Hall (user & Hu & [->|Hsame]).
      * by destruct (Hall Inst Hu).
      * by destruct (Hall user Hu).
  - done.
  - intros F st user HF Hkp Hv Hu Hisa Hpar.
    apply runOnFunction_records; [done|done|done|].
    apply (Htrue newPass). exists user. split; [done|by right].
Qed.
End DependencyTest.

(** On [Example.ir]: the branch 104 of [main] does not use [@x] (70), but
    the load 102 that does stands before it in the same block. *)
Lemma isDependentOn_self_or_same_block_witness :
  ∃ s, keyPointDependencies
         (exec (runOnFunction Example.ir Example.main) newPass) !! 104%positive
       = Some s ∧ 70%positive ∈ s.
Proof.
  refine (proj2 (proj2 (proj2
    (isDependentOn_self_or_same_block Example.ir 104 70)))
    Example.main newPass 102%positive _ _ _ _ _ _).
  - decide_by_compute.
  - reflexivity.
  - decide_by_compute.
  - decide_by_compute.
  - reflexivity.
  - reflexivity.
Defined.

(** * The input set *)

(** X14. [detectInputVariables] adds to [inputVariables] the operands at
    indices [1 .. getNumOperands - 1] of the call instructions for which
    [getCalledFunction()] returns a function named [scanf], and nothing
    else: operand 0 of such a call is skipped whatever it is, and an
    instruction that is not such a call contributes no value.  The values are inserted, and announced on [errs()], in program
    order; the map is left alone.  In a run, where the set is cleared
    first, the set consists of exactly these operands. *)
Theorem detectInputVariables_scanf_operands (ir : IR) (F : Function) (st : PassState) :
  (∀ v, v ∈ inputVariables (exec (detectInputVariables ir F) st) ↔
        v ∈ inputVariables st ∨
        ∃ call i, call ∈ instructions ir F ∧ is_scanf_call ir call ∧
                  1 ≤ i < getNumOperands ir call ∧ getOperand ir call i = Some v)
  ∧ errs (exec (detectInputVariables ir F) st)
    = errs st ++
      flat_map (detected_line)
        (flat_map (λ Inst, if is_scanf_callb ir Inst
                           then drop 1 (operands ir Inst) else [])
           (instructions ir F))
  ∧ keyPointDependencies (exec (detectInputVariables ir F) st)
    = keyPointDependencies st
  ∧ (∀ v, v ∈ inputVariables (exec (runOnFunction ir F) st) ↔
        ∃ call i, call ∈ instructions ir F ∧ is_scanf_call ir call ∧
                  1 ≤ i < getNumOperands ir call ∧ getOperand ir call i = Some v).
Proof.
  rewrite exec_detectInputVariables, exec_runOnFunction.
  cbn [with_inputs inputVariables keyPointDependencies errs].
  split; [|split; [done|split; [done|]]].
  - intros v. rewrite elem_of_union. fold (inputSet ir F).
    by rewrite elem_of_inputSet.
  - intros v. apply elem_of_inputSet.
Qed.

(** C2. The operand at index 0 of a call is not the routine reference:
    the called function is the last operand, after the arguments.  So for
    a call to [scanf] with at least one argument the loop from index 1 to
    [getNumOperands() - 1] puts the function [scanf] itself into the input
    set, and announces it, while the first argument, at index 0, is never
    read: it is in the input set after a run only if it is also the
    operand at an index from 1 on of some [scanf] call of the function. *)
Theorem detectInputVariables_inserts_called_function (ir : IR) (F : Function)
    (st : PassState) (call : Instruction) (f : Function) :
  call ∈ instructions ir F →
  instClass ir call = CallInst →
  getCalledFunction ir call = Some f →
  getName ir f = "scanf" →
  last (operands ir call) = Some f →
  2 ≤ getNumOperands ir call →
  f ∈ inputVariables (exec (detectInputVariables ir F) st)
  ∧ f ∈ inputVariables (exec (runOnFunction ir F) st)
  ∧ (∃ before after,
       errs (exec (detectInputVariables ir F) st)
       = before ++ [Str "Detected input variable from scanf: "; Val f; Str endl]
         ++ after)
  ∧ (∀ arg0,
       getOperand ir call 0 = Some arg0 →
       (∀ c i, c ∈ instructions ir F → is_scanf_call ir c →
               1 ≤ i < getNumOperands ir c → getOperand ir c i ≠ Some arg0) →
       arg0 ∉ inputVariables (exec (runOnFunction ir F) st)).
Proof.
  intros HF Hclass Hcallee Hname Hlast Hn.
  assert (Hscanf : is_scanf_call ir call).
  { split; [done|]. by exists f. }
  assert (Hop : getOperand ir call (getNumOperands ir call - 1) = Some f).
  { unfold getOperand, getNumOperands. rewrite last_lookup in Hlast.
    by replace (length (operands ir call) - 1)
      with (pred (length (operands ir call))) by lia. }
  assert (Hin : f ∈ inputSet ir F).
  { apply elem_of_inputSet. exists call, (getNumOperands ir call - 1).
    split; [done|]. split; [done|]. split; [lia|done]. }
  rewrite exec_detectInputVariables, exec_runOnFunction.
  cbn [with_inputs inputVariables errs].
  split; [apply elem_of_union; by right|]. split; [done|]. split.
  - unfold inputSet in Hin. apply elem_of_list_to_set in Hin.
    apply list_elem_of_split in Hin as (l1 & l2 & ->).
    rewrite flat_map_app. cbn [flat_map].
    exists (errs st ++ flat_map detected_line l1), (flat_map detected_line l2).
    unfold detected_line at 2. by rewrite <- !app_assoc.
  - intros arg0 _ Hnever Harg. apply elem_of_inputSet in Harg.
    destruct Harg as (c & i & Hc & Hcs & Hi & Hv). by apply (Hnever c i).
Qed.

(** On [Example.ir]: the call 101 of [main] has the operands [@fmt] (50),
    [@x] (70) and [@scanf] (2). *)
Lemma detectInputVariables_inserts_called_function_witness :
  2%positive ∈ inputVariables
                 (exec (detectInputVariables Example.ir Example.main) newPass)
  ∧ 2%positive ∈ inputVariables
                   (exec (runOnFunction Example.ir Example.main) newPass)
  ∧ 50%positive ∉ inputVariables
                    (exec (runOnFunction Example.ir Example.main) newPass).
Proof.
  destruct (detectInputVariables_inserts_called_function
              Example.ir Example.main newPass 101 2) as (H1 & H2 & _ & H0).
  - decide_by_compute.
  - reflexivity.
  - reflexivity.
  - reflexivity.
  - reflexivity.
  - vm_compute. lia.
  - split; [exact H1|]. split; [exact H2|].
    apply (H0 50%positive); [reflexivity|].
    intros c i Hc [_ (g & Hg & Hname)] Hi.
    change (instructions Example.ir Example.main)
      with [101; 102; 103; 104; 110; 111; 120]%positive in Hc.
    repeat (apply elem_of_cons in Hc as [->|Hc]);
      try discriminate Hg; try (by apply elem_of_nil in Hc).
    + assert (Hcases : i = 1 ∨ i = 2).
      { change (getNumOperands Example.ir 101) with 3 in Hi. lia. }
      destruct Hcases as [->| ->]; discriminate.
    + injection Hg as <-. discriminate Hname.
Defined.

(** * The influence map *)

Section InfluenceMap.
Context (ir : IR).

(** C3. The keys of [keyPointDependencies] after a run are exactly the
    instructions of the function that [isKeyPoint] accepts, whether or
    not the set recorded for them is empty.  The instruction loop of
    [analyzeInputInfluence] alone adds exactly these keys to the keys it
    finds. *)
Theorem keyPointDependencies_keys (F : Function) (st : PassState) (Inst : Instruction) :
  (Inst ∈ dom (keyPointDependencies (exec (runOnFunction ir F) st)) ↔
     Inst ∈ instructions ir F ∧ eval (isKeyPoint ir Inst) st = true)
  ∧ (Inst ∈ dom (keyPointDependencies (exec (analyzeInputInfluence ir F) st)) ↔
     Inst ∈ dom (keyPointDependencies st) ∨
     (Inst ∈ instructions ir F ∧ eval (isKeyPoint ir Inst) st = true)).
Proof.
  rewrite exec_runOnFunction, exec_analyzeInputInfluence.
  cbn [keyPointDependencies]. rewrite !elem_of_dom.
  rewrite lookup_keyPointMap, lookup_with_key_points.
  change (eval (isKeyPoint ir Inst) st) with (keyPoint ir Inst).
  split; case_decide as Hd.
  - split; [done|]. by eexists.
  - split; [by intros [? [=]]|done].
  - split; [by right|]. by eexists.
  - split; [by left|]. by intros [?|?].
Qed.

(** C4. When every operand of an instruction lists that instruction among
    its users, a key point of the analysed function has each input value
    among its own operands in its recorded set. *)
Theorem direct_operand_is_influencing (F : Function) (st : PassState)
    (Inst : Instruction) (v : Value) :
  operands_are_used ir F →
  Inst ∈ instructions ir F →
  eval (isKeyPoint ir Inst) st = true →
  v ∈ inputVariables (exec (runOnFunction ir F) st) →
  v ∈ operands ir Inst →
  ∃ s, keyPointDependencies (exec (runOnFunction ir F) st) !! Inst = Some s ∧ v ∈ s.
Proof.
  intros Hwf HF Hkp Hv Hop.
  apply runOnFunction_records; [done|done|done|].
  rewrite dependsOn_eq. apply isDependentOn_loop_true.
  exists Inst. split; [by apply Hwf|by left].
Qed.

Lemma operands_are_usedb_spec F :
  operands_are_usedb ir F = true → operands_are_used ir F.
Proof.
  unfold operands_are_usedb, operands_are_used.
  rewrite forallb_forall. intros H Inst v HI Hv.
  apply list_elem_of_In, H in HI. rewrite forallb_forall in HI.
  apply list_elem_of_In, HI in Hv. by apply bool_decide_eq_true in Hv.
Qed.
End InfluenceMap.

(** On [Example.ir]: [@x] (70) is an operand of the [scanf] call 101. *)
Lemma direct_operand_is_influencing_witness :
  ∃ s, keyPointDependencies
         (exec (runOnFunction Example.ir Example.main) newPass) !! 101%positive
       = Some s ∧ 70%positive ∈ s.
Proof.
  apply (direct_operand_is_influencing Example.ir Example.main newPass 101 70).
  - apply operands_are_usedb_spec. vm_compute. reflexivity.
  - decide_by_compute.
  - reflexivity.
  - decide_by_compute.
  - decide_by_compute.
Defined.

(** * The report *)

Section ReportFilter.
Context (ir : IR).

Lemma elem_of_reported (m : gmap positive (gset positive)) Inst s :
  (Inst, s) ∈ reported m ↔ m !! Inst = Some s ∧ s ≠ ∅.
Proof.
  unfold reported. rewrite list_elem_of_filter, elem_of_map_iter. cbn. tauto.
Qed.

Lemma NoDup_reported_keys (m : gmap positive (gset positive)) :
  NoDup (reported m).*1.
Proof.
  unfold reported. eapply sublist_NoDup; [apply NoDup_map_iter_keys|].
  apply fmap_sublist, sublist_filter.
Qed.

Lemma line_ends_report_line entry : line_ends (report_line ir entry) = 1.
Proof.
  unfold line_ends, report_line. rewrite !filter_app, !length_app.
  assert (Hvals : filter (λ t, t = Str endl)
                    (flat_map (λ input, [Val input; Str " "]) (set_iter entry.2)) = []).
  { induction (set_iter entry.2) as [|x l IH]; [done|].
    cbn [flat_map app]. rewrite filter_cons_False by done.
    rewrite filter_cons_False; [done|]. intros [=]. }
  rewrite Hvals. done.
Qed.

(** C5. [printResults] writes, between its header and footer, one line
    for each entry of [keyPointDependencies] whose set is not empty, in
    the iteration order of the map, and nothing for the others; each line ends once; the
    entries shown are exactly those with a non-empty set, each once; the
    containers are left as they were, so the entries with an empty set
    stay in the map. *)
Theorem printResults_nonempty_entries (F : Function) (st : PassState) :
  errs (exec (printResults ir F) st)
  = errs st ++ report_header ir F
    ++ flat_map (report_line ir)
         (filter (λ entry, entry.2 ≠ ∅) (map_iter (keyPointDependencies st)))
    ++ report_footer
  ∧ (∀ Inst s,
       (Inst, s) ∈ filter (λ entry, entry.2 ≠ ∅) (map_iter (keyPointDependencies st))
       ↔ keyPointDependencies st !! Inst = Some s ∧ s ≠ ∅)
  ∧ NoDup (filter (λ entry, entry.2 ≠ ∅) (map_iter (keyPointDependencies st))).*1
  ∧ (∀ entry, line_ends (report_line ir entry) = 1)
  ∧ keyPointDependencies (exec (printResults ir F) st) = keyPointDependencies st
  ∧ inputVariables (exec (printResults ir F) st) = inputVariables st.
Proof.
  rewrite exec_printResults. cbn [with_output errs keyPointDependencies inputVariables].
  split; [done|]. split; [apply elem_of_reported|].
  split; [apply NoDup_reported_keys|]. split; [apply line_ends_report_line|done].
Qed.

(** C9. [getLineNumber] returns the line of the debug location of the
    instruction when there is one and 0 when there is none; in both cases
    it returns, and leaves the pass as it was. *)
Theorem getLineNumber_line_or_zero (Inst : Instruction) (st : PassState) :
  (∀ Loc, getDebugLoc ir Inst = Some Loc →
          getLineNumber ir Inst st = (getLine ir Loc, st))
  ∧ (getDebugLoc ir Inst = None → getLineNumber ir Inst st = (0%N, st)).
Proof.
  unfold getLineNumber. split.
  - by intros Loc ->.
  - by intros ->.
Qed.
End ReportFilter.

(** On [Example.ir]: the call 101 is on line 5, the load 102 has no debug
    location. *)
Lemma getLineNumber_line_or_zero_witness :
  getLineNumber Example.ir 101 newPass = (5%N, newPass)
  ∧ getLineNumber Example.ir 102 newPass = (0%N, newPass).
Proof.
  split.
  - apply (proj1 (getLineNumber_line_or_zero Example.ir 101 newPass) 901%positive).
    reflexivity.
  - apply (proj2 (getLineNumber_line_or_zero Example.ir 102 newPass)).
    reflexivity.
Defined.

(** * The key-point classifier *)

(** C6. [isKeyPoint] returns true exactly for a [BranchInst] (a conditional
    or unconditional [br]) and for a [CallInst]; it leaves the pass as it
    was and returns the same answer whatever the containers hold. *)
Theorem isKeyPoint_branch_or_call (ir : IR) (Inst : Instruction) (st : PassState) :
  (eval (isKeyPoint ir Inst) st = true ↔
     instClass ir Inst = BranchInst ∨ instClass ir Inst = CallInst)
  ∧ exec (isKeyPoint ir Inst) st = st
  ∧ (∀ st', eval (isKeyPoint ir Inst) st' = eval (isKeyPoint ir Inst) st).
Proof.
  split; [|done].
  unfold eval. rewrite isKeyPoint_run. cbn [fst]. rewrite keyPoint_eq.
  unfold isa_BranchInst, isa_CallInst.
  by rewrite orb_true_iff, !bool_decide_eq_true.
Qed.

(** * State between runs *)

(** C7. Running the pass on [A] and then on [B] leaves the containers as a
    run on [B] of a freshly constructed pass does. *)
Theorem runOnFunction_after_other_function (ir : IR) (A B : Function) :
  inputVariables (exec (runOnFunction ir B) (exec (runOnFunction ir A) newPass))
  = inputVariables (exec (runOnFunction ir B) newPass)
  ∧ keyPointDependencies (exec (runOnFunction ir B) (exec (runOnFunction ir A) newPass))
    = keyPointDependencies (exec (runOnFunction ir B) newPass).
Proof. by rewrite !exec_runOnFunction. Qed.

(** C8. Two runs on the same function end with the same input set and the
    same map, and write the same text, whatever state each starts from; in
    particular a second run after the first repeats its result. *)
Theorem runOnFunction_deterministic (ir : IR) (F : Function) (st1 st2 : PassState) :
  inputVariables (exec (runOnFunction ir F) st1)
  = inputVariables (exec (runOnFunction ir F) st2)
  ∧ keyPointDependencies (exec (runOnFunction ir F) st1)
    = keyPointDependencies (exec (runOnFunction ir F) st2)
  ∧ (∃ text, errs (exec (runOnFunction ir F) st1) = errs st1 ++ text
             ∧ errs (exec (runOnFunction ir F) st2) = errs st2 ++ text)
  ∧ inputVariables (exec (runOnFunction ir F) (exec (runOnFunction ir F) st1))
    = inputVariables (exec (runOnFunction ir F) st1)
  ∧ keyPointDependencies (exec (runOnFunction ir F) (exec (runOnFunction ir F) st1))
    = keyPointDependencies (exec (runOnFunction ir F) st1).
Proof.
  rewrite !exec_runOnFunction. cbn [inputVariables keyPointDependencies errs].
  split; [done|]. split; [done|]. split; [by eexists|done].
Qed.

(** * Input calls are key points *)

(** C10. When every operand of an instruction lists that instruction among
    its users, a [scanf] call of the analysed function that has an operand
    at an index from 1 on is a key point, is a key of the map after the
    run, its recorded set is not empty and holds every one of these
    operands, each of which is in the input set, and its line is part of
    the report. *)
Theorem scanf_call_is_reported (ir : IR) (F : Function) (st : PassState)
    (call : Instruction) :
  operands_are_used ir F →
  call ∈ instructions ir F →
  is_scanf_call ir call →
  (∃ i v, 1 ≤ i < getNumOperands ir call ∧ getOperand ir call i = Some v) →
  eval (isKeyPoint ir call) st = true
  ∧ ∃ s, keyPointDependencies (exec (runOnFunction ir F) st) !! call = Some s
       ∧ s ≠ ∅
       ∧ (∀ i v, 1 ≤ i < getNumOperands ir call →
                 getOperand ir call i = Some v →
                 v ∈ inputVariables (exec (runOnFunction ir F) st) ∧ v ∈ s)
       ∧ ∃ before after,
           errs (exec (runOnFunction ir F) st)
           = before ++ report_line ir (call, s) ++ after.
Proof.
  intros Hwf HF Hscanf (i0 & v0 & Hi0 & Hv0).
  assert (Hkp : keyPoint ir call = true).
  { rewrite keyPoint_eq. unfold isa_CallInst.
    destruct Hscanf as [-> _]. apply orb_true_r. }
  split; [done|].
  rewrite exec_runOnFunction. cbn [inputVariables keyPointDependencies errs].
  exists (influencing ir (inputSet ir F) call).
  assert (Hargs : ∀ i v, 1 ≤ i < getNumOperands ir call →
                    getOperand ir call i = Some v →
                    v ∈ inputSet ir F ∧ v ∈ influencing ir (inputSet ir F) call).
  { intros i v Hi Hv.
    assert (Hin : v ∈ inputSet ir F).
    { apply elem_of_inputSet. by exists call, i. }
    split; [done|]. apply elem_of_influencing. split; [done|].
    rewrite dependsOn_eq. apply isDependentOn_loop_true.
    exists call. split; [|by left].
    apply Hwf; [done|]. by apply list_elem_of_lookup_2 with i. }
  assert (Hne : influencing ir (inputSet ir F) call ≠ ∅).
  { intros Hempty. destruct (Hargs i0 v0 Hi0 Hv0) as [_ Hv].
    rewrite Hempty in Hv. by apply not_elem_of_empty in Hv. }
  assert (Hlook : keyPointMap ir F !! call
                  = Some (influencing ir (inputSet ir F) call)).
  { by rewrite lookup_keyPointMap, decide_True. }
  split; [done|]. split; [done|]. split; [done|].
  assert (Hrep : (call, influencing ir (inputSet ir F) call)
                 ∈ reported (keyPointMap ir F)).
  { by apply elem_of_reported. }
  apply list_elem_of_split in Hrep as (l1 & l2 & Hsplit).
  unfold run_output. rewrite Hsplit, flat_map_app. cbn [flat_map].
  generalize (report_line ir (call, influencing ir (inputSet ir F) call)) as line.
  generalize (flat_map (report_line ir) l1) as lines1.
  generalize (flat_map (report_line ir) l2) as lines2.
  generalize (flat_map detected_line
                (flat_map (contribution ir) (instructions ir F))) as detected.
  generalize (report_header ir F) as header.
  generalize [Str "Analyzing function: "; Str (getName ir F); Str endl] as banner.
  intros banner header detected lines2 lines1 line.
  exists (errs st ++ banner ++ detected ++ header ++ lines1),
         (lines2 ++ report_footer).
  by rewrite <- !app_assoc.
Qed.

(** On [Example.ir]: the [scanf] call 101 of [main]. *)
Lemma scanf_call_is_reported_witness :
  eval (isKeyPoint Example.ir 101) newPass = true
  ∧ ∃ s, keyPointDependencies
           (exec (runOnFunction Example.ir Example.main) newPass) !! 101%positive
         = Some s
       ∧ s ≠ ∅
       ∧ (∀ i v, 1 ≤ i < getNumOperands Example.ir 101 →
                 getOperand Example.ir 101 i = Some v →
                 v ∈ inputVariables
                       (exec (runOnFunction Example.ir Example.main) newPass)
                 ∧ v ∈ s)
       ∧ ∃ before after,
           errs (exec (runOnFunction Example.ir Example.main) newPass)
           = before ++ report_line Example.ir (101%positive, s) ++ after.
Proof.
  apply (scanf_call_is_reported Example.ir Example.main newPass 101).
  - apply operands_are_usedb_spec. vm_compute. reflexivity.
  - decide_by_compute.
  - split; [reflexivity|]. exists 2%positive. split; reflexivity.
  - exists 1, 70%positive. split; [vm_compute; lia|reflexivity].
Defined.

(** * The pass on the example module *)

Example main_inputVariables :
  set_iter (inputVariables (exec (runOnFunction Example.ir Example.main) newPass))
  = [2; 70]%positive.
Proof. vm_compute. reflexivity. Qed.

(** The call to [puts] and the branch of block [then] are keys with an
    empty set: no user of [@scanf] or [@x] is in their block. *)
Example main_keyPointDependencies :
  (λ entry, (entry.1, set_iter entry.2)) <$>
    map_iter (keyPointDependencies
                (exec (runOnFunction Example.ir Example.main) newPass))
  = [(101, [2; 70]); (104, [2; 70]); (110, []); (111, [])]%positive.
Proof. vm_compute. reflexivity. Qed.

Example main_errs :
  errs (exec (runOnFunction Example.ir Example.main) newPass)
  = [Str "Analyzing function: "; Str "main"; Str endl;
     Str "Detected input variable from scanf: "; Val 70; Str endl;
     Str "Detected input variable from scanf: "; Val 2; Str endl;
     Str "=== Seminal Input Analysis Results for Function: "; Str "main";
     Str " ==="; Str endl;
     Str "Line "; Unsigned 5; Str ": Influenced by inputs: ";
     Val 2; Str " "; Val 70; Str " "; Str endl;
     Str "Line "; Unsigned 6; Str ": Influenced by inputs: ";
     Val 2; Str " "; Val 70; Str " "; Str endl;
     Str "============================================="; Str endl].
Proof. vm_compute. reflexivity. Qed.

Example read_two_after_main :
  (λ entry, (entry.1, set_iter entry.2)) <$>
    map_iter (keyPointDependencies
                (exec (runOnFunction Example.ir Example.read_two)
                   (exec (runOnFunction Example.ir Example.main) newPass)))
  = [(212, [2; 210; 211])]%positive.
Proof. vm_compute. reflexivity. Qed.

Example runOnFunction_returns_false :
  eval (runOnFunction Example.ir Example.main) newPass = false.
Proof. apply eval_runOnFunction. Qed.

(** * Further properties of the recorded sets *)

Section RecordedSets.
Context (ir : IR).

Lemma dependsOn_true Inst v :
  dependsOn ir Inst v = true ↔
  ∃ user, user ∈ users ir v ∧
    (user = Inst ∨
     (isa_Instruction ir user = true ∧ getParent ir user = getParent ir Inst)).
Proof. rewrite dependsOn_eq. apply isDependentOn_loop_true. Qed.

(** X1. A set recorded by a run holds exactly the members of the input set
    that have a user which is the key point itself or an instruction of
    its block: nothing else gets in, and in particular the set is part of
    the input set. *)
Theorem recorded_set_exact (F : Function) (st : PassState)
    (Inst : Instruction) (s : gset positive) :
  keyPointDependencies (exec (runOnFunction ir F) st) !! Inst = Some s →
  (∀ v, v ∈ s ↔
        v ∈ inputVariables (exec (runOnFunction ir F) st) ∧
        ∃ user, user ∈ users ir v ∧
          (user = Inst ∨
           (isa_Instruction ir user = true ∧
            getParent ir user = getParent ir Inst)))
  ∧ s ⊆ inputVariables (exec (runOnFunction ir F) st).
Proof.
  rewrite exec_runOnFunction. cbn [inputVariables keyPointDependencies].
  rewrite lookup_keyPointMap. case_decide; [|done]. intros [= <-].
  split.
  - intros v. by rewrite elem_of_influencing, dependsOn_true.
  - intros v. rewrite elem_of_influencing. tauto.
Qed.

(** X2. For an instruction the test [user == Inst] adds nothing to the
    block test, so [isDependentOn] gives the same answer for two
    instructions of one block, and two key points of one block end a run
    with the same recorded set. *)
Theorem same_block_same_dependencies (Inst1 Inst2 : Instruction) :
  isa_Instruction ir Inst1 = true →
  isa_Instruction ir Inst2 = true →
  getParent ir Inst1 = getParent ir Inst2 →
  (∀ v st st', eval (isDependentOn ir Inst1 v) st
               = eval (isDependentOn ir Inst2 v) st')
  ∧ (∀ F st,
       Inst1 ∈ instructions ir F → Inst2 ∈ instructions ir F →
       eval (isKeyPoint ir Inst1) st = true →
       eval (isKeyPoint ir Inst2) st = true →
       keyPointDependencies (exec (runOnFunction ir F) st) !! Inst1
       = keyPointDependencies (exec (runOnFunction ir F) st) !! Inst2).
Proof.
  intros H1 H2 Hpar.
  assert (Hdep : ∀ v, dependsOn ir Inst1 v = dependsOn ir Inst2 v).
  { intros v. apply eq_true_iff_eq. rewrite !dependsOn_true.
    split; intros (user & Hu & Hcase); exists user; (split; [done|]); right.
    - destruct Hcase as [->|[? ?]]; [by rewrite Hpar|]. split; congruence.
    - destruct Hcase as [->|[? ?]]; [by rewrite Hpar|]. split; congruence. }
  split; [intros v st st'; apply Hdep|].
  intros F st HF1 HF2 Hk1 Hk2.
  rewrite exec_runOnFunction. cbn [keyPointDependencies].
  rewrite !lookup_keyPointMap, !decide_True by done. f_equal.
  apply set_eq. intros v. by rewrite !elem_of_influencing, Hdep.
Qed.

(** X3. When every operand lists its users, a key point in the block of a
    [scanf] call has each operand of that call from index 1 on in its
    recorded set, whether or not it uses the operand and wherever in the
    block it stands. *)
Theorem key_point_beside_scanf_call (F : Function) (st : PassState)
    (call Inst : Instruction) (i : nat) (v : Value) :
  operands_are_used ir F →
  call ∈ instructions ir F →
  is_scanf_call ir call →
  isa_Instruction ir call = true →
  Inst ∈ instructions ir F →
  eval (isKeyPoint ir Inst) st = true →
  getParent ir Inst = getParent ir call →
  1 ≤ i < getNumOperands ir call →
  getOperand ir call i = Some v →
  ∃ s, keyPointDependencies (exec (runOnFunction ir F) st) !! Inst = Some s
       ∧ v ∈ s.
Proof.
  intros Hwf Hcall Hscanf Hisa HInst Hkp Hpar Hi Hv.
  apply runOnFunction_records; [done|done| |].
  - rewrite exec_runOnFunction. cbn [inputVariables].
    apply elem_of_inputSet. by exists call, i.
  - apply dependsOn_true. exists call. split.
    + apply Hwf; [done|]. by apply list_elem_of_lookup_2 with i.
    + right. by split.
Qed.

(** X4. When no [scanf] call of the function has an operand beyond index
    0, a run ends with an empty input set, every key of the map has the
    empty set, and the run prints its first line, the header and the
    footer only. *)
Theorem nothing_to_detect (F : Function) (st : PassState) :
  (∀ Inst, Inst ∈ instructions ir F → is_scanf_call ir Inst →
           getNumOperands ir Inst ≤ 1) →
  inputVariables (exec (runOnFunction ir F) st) = ∅
  ∧ (∀ Inst s,
       keyPointDependencies (exec (runOnFunction ir F) st) !! Inst = Some s →
       s = ∅)
  ∧ errs (exec (runOnFunction ir F) st)
    = errs st ++ banner ir F ++ report_header ir F ++ report_footer.
Proof.
  intros Hnone.
  assert (Hcontrib : flat_map (contribution ir) (instructions ir F) = []).
  { apply elem_of_nil_inv. intros v. rewrite elem_of_flat_map.
    intros (Inst & HInst & Hv). apply elem_of_contribution in Hv.
    destruct Hv as (Hscanf & i & Hi & _).
    specialize (Hnone Inst HInst Hscanf). lia. }
  assert (Hin : inputSet ir F = ∅).
  { unfold inputSet. by rewrite Hcontrib. }
  assert (Hsets : ∀ Inst s, keyPointMap ir F !! Inst = Some s → s = ∅).
  { intros Inst s. rewrite lookup_keyPointMap. case_decide; [|done].
    intros [= <-]. rewrite Hin. apply set_eq. intros v.
    rewrite elem_of_influencing. set_solver. }
  rewrite exec_runOnFunction. cbn [inputVariables keyPointDependencies errs].
  split; [done|]. split; [done|].
  unfold run_output. rewrite Hcontrib.
  assert (Hrep : reported (keyPointMap ir F) = []).
  { apply elem_of_nil_inv. intros [Inst s] Hs.
    apply elem_of_reported in Hs as [Hlook Hne]. by apply Hsets in Hlook. }
  by rewrite Hrep.
Qed.
End RecordedSets.

(** On [Example.ir]: the set recorded for the branch 104 of [main]. *)
Lemma recorded_set_exact_witness :
  (∀ v, v ∈ (list_to_set [2; 70]%positive : gset positive) ↔
        v ∈ inputVariables (exec (runOnFunction Example.ir Example.main) newPass) ∧
        ∃ user, user ∈ users Example.ir v ∧
          (user = 104%positive ∨
           (isa_Instruction Example.ir user = true ∧
            getParent Example.ir user = getParent Example.ir 104)))
  ∧ (list_to_set [2; 70]%positive : gset positive)
    ⊆ inputVariables (exec (runOnFunction Example.ir Example.main) newPass).
Proof.
  apply (recorded_set_exact Example.ir Example.main newPass 104).
  vm_compute. reflexivity.
Defined.

(** On [Example.ir]: the call 101 and the branch 104 of block [entry]. *)
Lemma same_block_same_dependencies_witness :
  (∀ v st st', eval (isDependentOn Example.ir 101 v) st
               = eval (isDependentOn Example.ir 104 v) st')
  ∧ (∀ F st,
       101%positive ∈ instructions Example.ir F →
       104%positive ∈ instructions Example.ir F →
       eval (isKeyPoint Example.ir 101) st = true →
       eval (isKeyPoint Example.ir 104) st = true →
       keyPointDependencies (exec (runOnFunction Example.ir F) st) !! 101%positive
       = keyPointDependencies (exec (runOnFunction Example.ir F) st) !! 104%positive).
Proof.
  apply (same_block_same_dependencies Example.ir 101 104); reflexivity.
Defined.

(** On [Example.ir]: the branch 104 does not use [@x] (70), operand 1 of
    the [scanf] call 101 of its block. *)
Lemma key_point_beside_scanf_call_witness :
  ∃ s, keyPointDependencies
         (exec (runOnFunction Example.ir Example.main) newPass) !! 104%positive
       = Some s ∧ 70%positive ∈ s.
Proof.
  apply (key_point_beside_scanf_call Example.ir Example.main newPass 101 104 1 70).
  - apply operands_are_usedb_spec. vm_compute. reflexivity.
  - decide_by_compute.
  - split; [reflexivity|]. exists 2%positive. split; reflexivity.
  - reflexivity.
  - decide_by_compute.
  - reflexivity.
  - reflexivity.
  - vm_compute. lia.
  - reflexivity.
Defined.

(** On [Quiet.ir]: the only [scanf] call of [greet] has one operand. *)
Lemma nothing_to_detect_witness :
  inputVariables (exec (runOnFunction Quiet.ir Quiet.greet) newPass) = ∅
  ∧ (∀ Inst s,
       keyPointDependencies (exec (runOnFunction Quiet.ir Quiet.greet) newPass) !! Inst
       = Some s → s = ∅)
  ∧ errs (exec (runOnFunction Quiet.ir Quiet.greet) newPass)
    = errs newPass ++ banner Quiet.ir Quiet.greet
      ++ report_header Quiet.ir Quiet.greet ++ report_footer.
Proof.
  apply (nothing_to_detect Quiet.ir Quiet.greet newPass).
  intros Inst HInst Hscanf.
  change (instructions Quiet.ir Quiet.greet)
    with [300; 301; 302; 310]%positive in HInst.
  repeat (apply elem_of_cons in HInst as [->|HInst]).
  - destruct Hscanf as [_ (f & [= <-] & Hname)]. discriminate Hname.
  - vm_compute. lia.
  - destruct Hscanf as [Hclass _]. discriminate Hclass.
  - destruct Hscanf as [Hclass _]. discriminate Hclass.
  - by apply elem_of_nil in HInst.
Defined.

(** * The order of the users *)

Section UserOrder.
Context (ir : IR) (us : Value → list User).
Hypothesis us_users : ∀ v, us v ≡ₚ users ir v.

Lemma dependsOn_with_users Inst v :
  dependsOn (with_users ir us) Inst v = dependsOn ir Inst v.
Proof.
  rewrite !dependsOn_eq.
  change (isDependentOn_loop (with_users ir us) Inst (users (with_users ir us) v))
    with (isDependentOn_loop ir Inst (us v)).
  apply isDependentOn_loop_Permutation, us_users.
Qed.

Lemma influencing_with_users ins Inst :
  influencing (with_users ir us) ins Inst = influencing ir ins Inst.
Proof.
  apply set_eq. intros v. by rewrite !elem_of_influencing, dependsOn_with_users.
Qed.

Lemma keyPointMap_with_users F :
  keyPointMap (with_users ir us) F = keyPointMap ir F.
Proof.
  apply map_eq. intros Inst. rewrite !lookup_keyPointMap.
  change (instructions (with_users ir us) F) with (instructions ir F).
  change (keyPoint (with_users ir us) Inst) with (keyPoint ir Inst).
  change (inputSet (with_users ir us) F) with (inputSet ir F).
  by rewrite influencing_with_users.
Qed.

(** X5. The pass does not rely on the order in which [users()] enumerates
    the users of a value: enumerating them in another order changes
    neither the containers nor the text of a run. *)
Theorem runOnFunction_any_user_order (F : Function) (st : PassState) :
  exec (runOnFunction (with_users ir us) F) st = exec (runOnFunction ir F) st.
Proof.
  rewrite !exec_runOnFunction.
  change (inputSet (with_users ir us) F) with (inputSet ir F).
  unfold run_output. rewrite keyPointMap_with_users. done.
Qed.
End UserOrder.

(** On [Example.ir] with every use list reversed. *)
Lemma runOnFunction_any_user_order_witness :
  exec (runOnFunction
          (with_users Example.ir (λ v, reverse (users Example.ir v)))
          Example.main) newPass
  = exec (runOnFunction Example.ir Example.main) newPass.
Proof.
  apply (runOnFunction_any_user_order Example.ir
           (λ v, reverse (users Example.ir v))).
  intros v. apply reverse_Permutation.
Defined.

(** * The steps on their own *)

Section Steps.
Context (ir : IR).

(** X6. [detectInputVariables] only adds to the input set; run a second
    time on the same function it leaves the set as it is and writes its
    diagnostics once more: a value already in the set is announced again. *)
Theorem detectInputVariables_twice (F : Function) (st : PassState) :
  inputVariables st ⊆ inputVariables (exec (detectInputVariables ir F) st)
  ∧ inputVariables (exec (detectInputVariables ir F)
                      (exec (detectInputVariables ir F) st))
    = inputVariables (exec (detectInputVariables ir F) st)
  ∧ ∃ text,
      errs (exec (detectInputVariables ir F) st) = errs st ++ text
      ∧ errs (exec (detectInputVariables ir F)
                (exec (detectInputVariables ir F) st))
        = errs st ++ text ++ text.
Proof.
  rewrite !exec_detectInputVariables. cbn [with_inputs inputVariables errs].
  split; [set_solver|]. split; [set_solver|].
  eexists. split; [done|]. by rewrite <- app_assoc.
Qed.

(** X7. [analyzeInputInfluence] writes nothing and leaves the input set
    alone; it replaces the entry of every key point of the function by
    the members of the input set that pass the dependency test, whatever
    the entry was, and keeps the entry of every other key: without the
    [clear()] of [runOnFunction], the entries of an earlier function stay
    in the map. *)
Theorem analyzeInputInfluence_entries (F : Function) (st : PassState) :
  inputVariables (exec (analyzeInputInfluence ir F) st) = inputVariables st
  ∧ errs (exec (analyzeInputInfluence ir F) st) = errs st
  ∧ (∀ Inst,
       Inst ∈ instructions ir F → eval (isKeyPoint ir Inst) st = true →
       ∃ s, keyPointDependencies (exec (analyzeInputInfluence ir F) st) !! Inst
            = Some s
            ∧ ∀ v, v ∈ s ↔ v ∈ inputVariables st
                           ∧ eval (isDependentOn ir Inst v) st = true)
  ∧ (∀ Inst,
       ¬ (Inst ∈ instructions ir F ∧ eval (isKeyPoint ir Inst) st = true) →
       keyPointDependencies (exec (analyzeInputInfluence ir F) st) !! Inst
       = keyPointDependencies st !! Inst).
Proof.
  rewrite exec_analyzeInputInfluence.
  cbn [inputVariables keyPointDependencies errs].
  split; [done|]. split; [done|]. split.
  - intros Inst HF Hkp. rewrite lookup_with_key_points, decide_True by done.
    eexists. split; [done|]. intros v. apply elem_of_influencing.
  - intros Inst Hnot. by rewrite lookup_with_key_points, decide_False.
Qed.

(** X8. Running [analyzeInputInfluence] a second time changes nothing. *)
Theorem analyzeInputInfluence_idempotent (F : Function) (st : PassState) :
  exec (analyzeInputInfluence ir F) (exec (analyzeInputInfluence ir F) st)
  = exec (analyzeInputInfluence ir F) st.
Proof.
  rewrite !exec_analyzeInputInfluence.
  cbn [inputVariables keyPointDependencies errs]. f_equal.
  apply map_eq. intros Inst. rewrite !lookup_with_key_points.
  by case_decide.
Qed.
End Steps.

(** On [Example.ir]: analysing [read_two] after a run on [main] without
    clearing keeps the entry of the call 101 of [main]. *)
Lemma analyzeInputInfluence_entries_witness :
  keyPointDependencies
    (exec (analyzeInputInfluence Example.ir Example.read_two)
       (exec (runOnFunction Example.ir Example.main) newPass)) !! 101%positive
  = keyPointDependencies
      (exec (runOnFunction Example.ir Example.main) newPass) !! 101%positive.
Proof.
  apply (analyzeInputInfluence_entries Example.ir Example.read_two
           (exec (runOnFunction Example.ir Example.main) newPass)).
  intros [HF _]. revert HF. apply (bool_decide_unpack _). vm_compute. exact I.
Defined.

(** * Further properties of the report *)

Section ReportContents.
Context (ir : IR).

Lemma printed_values_app ts1 ts2 :
  printed_values (ts1 ++ ts2) = printed_values ts1 ++ printed_values ts2.
Proof. unfold printed_values. apply flat_map_app. Qed.

Lemma report_line_not_nil entry : report_line ir entry ≠ [].
Proof. done. Qed.

Lemma flat_map_report_line_nil (l : list (positive * gset positive)) :
  flat_map (report_line ir) l = [] → l = [].
Proof. by destruct l. Qed.

(** The values on the line of one entry. *)
Lemma printed_values_report_line (Inst : Instruction) (s : gset positive) :
  printed_values (report_line ir (Inst, s)) = set_iter s.
Proof.
  unfold report_line. rewrite !printed_values_app. cbn [snd].
  change (printed_values [Str "Line "; Unsigned (lineNumber ir (Inst, s).1);
                          Str ": Influenced by inputs: "]) with (@nil positive).
  change (printed_values [Str endl]) with (@nil positive).
  rewrite app_nil_l, app_nil_r.
  induction (set_iter s) as [|x l IH]; [done|].
  cbn [flat_map app]. change (printed_values (Val x :: Str " " :: ?ts))
    with (x :: printed_values ts). by rewrite IH.
Qed.

Lemma printed_values_report_lines (l : list (positive * gset positive)) :
  printed_values (flat_map (report_line ir) l)
  = flat_map (λ entry, set_iter entry.2) l.
Proof.
  induction l as [|[Inst s] l IH]; [done|].
  cbn [flat_map]. by rewrite printed_values_app, printed_values_report_line, IH.
Qed.

Lemma flat_map_set_iter_reported (m : gmap positive (gset positive)) :
  flat_map (λ entry, set_iter entry.2) (reported m)
  = flat_map (λ entry, set_iter entry.2) (map_iter m).
Proof.
  unfold reported. induction (map_iter m) as [|[Inst s] l IH]; [done|].
  destruct (decide (s = ∅)) as [->|Hne].
  - rewrite filter_cons_False by (cbn; intros Hs; by apply Hs).
    cbn [flat_map snd]. unfold set_iter at 2. by rewrite elements_empty.
  - rewrite filter_cons_True by done. cbn [flat_map]. by rewrite IH.
Qed.

Lemma count_in_NoDup (v : positive) (l : list positive) :
  NoDup l →
  length (filter (λ x, x = v) l) = if decide (v ∈ l) then 1 else 0.
Proof.
  induction 1 as [|x l Hx Hnd IH]; [done|].
  destruct (decide (x = v)) as [->|Hne].
  - rewrite filter_cons_True by done. cbn [length]. rewrite IH.
    rewrite decide_False by done. rewrite decide_True by left. done.
  - rewrite filter_cons_False by done. rewrite IH.
    apply decide_ext. rewrite elem_of_cons. naive_solver.
Qed.

(** X9. The values [printResults] writes are, entry after entry in the
    order of the map, the members of each set by increasing address: a
    value is shown exactly when some entry holds it, and as many times as
    there are entries that hold it. *)
Theorem printResults_shows_the_sets (F : Function) (st : PassState) :
  ∃ text,
    errs (exec (printResults ir F) st) = errs st ++ text
    ∧ printed_values text
      = flat_map (λ entry, set_iter entry.2) (map_iter (keyPointDependencies st))
    ∧ (∀ v, v ∈ printed_values text ↔
            ∃ Inst s, keyPointDependencies st !! Inst = Some s ∧ v ∈ s)
    ∧ (∀ v, length (filter (λ x, x = v) (printed_values text))
            = length (filter (λ entry, v ∈ entry.2)
                        (map_iter (keyPointDependencies st)))).
Proof.
  rewrite exec_printResults. cbn [with_output errs].
  eexists. split; [done|].
  assert (Hvals : printed_values
                    (report_header ir F
                     ++ flat_map (report_line ir) (reported (keyPointDependencies st))
                     ++ report_footer)
                  = flat_map (λ entry, set_iter entry.2)
                      (map_iter (keyPointDependencies st))).
  { rewrite !printed_values_app, printed_values_report_lines,
      flat_map_set_iter_reported.
    change (printed_values (report_header ir F)) with (@nil positive).
    change (printed_values report_footer) with (@nil positive).
    by rewrite app_nil_l, app_nil_r. }
  rewrite Hvals. clear Hvals. split; [done|]. split.
  - intros v. rewrite elem_of_flat_map. split.
    + intros ([Inst s] & Hin & Hv). exists Inst, s.
      by rewrite <- elem_of_map_iter, <- (elem_of_set_iter s).
    + intros (Inst & s & Hlook & Hv). exists (Inst, s).
      by rewrite elem_of_map_iter, elem_of_set_iter.
  - intros v. induction (map_iter (keyPointDependencies st)) as [|[Inst s] l IH];
      [done|].
    cbn [flat_map snd]. rewrite filter_app, length_app, IH.
    rewrite count_in_NoDup
      by (unfold set_iter; rewrite merge_sort_Permutation; apply NoDup_elements).
    destruct (decide (v ∈ s)) as [Hv|Hv].
    + rewrite decide_True by (by apply elem_of_set_iter).
      by rewrite filter_cons_True.
    + rewrite decide_False by (by rewrite elem_of_set_iter).
      by rewrite filter_cons_False.
Qed.

(** X10. [printResults] prints its header and footer and nothing between
    them exactly when every entry of the map has an empty set. *)
Theorem printResults_no_line_iff (F : Function) (st : PassState) :
  errs (exec (printResults ir F) st)
  = errs st ++ report_header ir F ++ report_footer
  ↔ ∀ Inst s, keyPointDependencies st !! Inst = Some s → s = ∅.
Proof.
  rewrite exec_printResults. cbn [with_output errs]. split.
  - intros Heq Inst s Hlook.
    apply app_inv_head, app_inv_head in Heq.
    rewrite <- (app_nil_l report_footer) in Heq at 2.
    apply app_inv_tail, flat_map_report_line_nil in Heq.
    destruct (decide (s = ∅)) as [|Hne]; [done|].
    assert (Hin : (Inst, s) ∈ reported (keyPointDependencies st)).
    { by apply elem_of_reported. }
    rewrite Heq in Hin. by apply elem_of_nil in Hin.
  - intros Hall.
    assert (Hrep : reported (keyPointDependencies st) = []).
    { apply elem_of_nil_inv. intros [Inst s] Hin.
      apply elem_of_reported in Hin as [Hlook Hne]. by apply Hall in Hlook. }
    by rewrite Hrep.
Qed.

(** X11. The text of a run ends with the header, one line for each
    instruction of a list, and the footer; an instruction is in that list
    exactly when it is a key point of the function and some value of the
    input set has a user that is this instruction or an instruction of its
    block. *)
Theorem reported_after_run_iff (F : Function) (st : PassState) :
  errs (exec (runOnFunction ir F) st)
  = errs st ++ banner ir F
    ++ errs (exec (detectInputVariables ir F) newPass)
    ++ report_header ir F
    ++ flat_map (report_line ir)
         (filter (λ entry, entry.2 ≠ ∅)
            (map_iter (keyPointDependencies (exec (runOnFunction ir F) st))))
    ++ report_footer
  ∧ NoDup (filter (λ entry, entry.2 ≠ ∅)
             (map_iter (keyPointDependencies (exec (runOnFunction ir F) st)))).*1
  ∧ ∀ Inst,
      (∃ s, (Inst, s) ∈ filter (λ entry, entry.2 ≠ ∅)
                          (map_iter (keyPointDependencies
                                       (exec (runOnFunction ir F) st))))
      ↔ Inst ∈ instructions ir F
        ∧ eval (isKeyPoint ir Inst) st = true
        ∧ ∃ v user,
            v ∈ inputVariables (exec (runOnFunction ir F) st)
            ∧ user ∈ users ir v
            ∧ (user = Inst ∨
               (isa_Instruction ir user = true ∧
                getParent ir user = getParent ir Inst)).
Proof.
  rewrite exec_runOnFunction, exec_detectInputVariables.
  cbn [with_inputs inputVariables keyPointDependencies errs app].
  fold (reported (keyPointMap ir F)).
  split; [unfold run_output, banner; by rewrite <- !app_assoc|].
  split; [apply NoDup_reported_keys|].
  intros Inst. split.
  - intros (s & Hin). apply elem_of_reported in Hin as [Hlook Hne].
    rewrite lookup_keyPointMap in Hlook. case_decide as Hkey; [|done].
    destruct Hkey as [HF Hkp]. injection Hlook as <-.
    split; [done|]. split; [done|].
    apply set_choose_L in Hne as [v Hv].
    apply elem_of_influencing in Hv as [Hv Hdep].
    apply dependsOn_true in Hdep as (user & Hu & Hcase).
    by exists v, user.
  - intros (HF & Hkp & v & user & Hv & Hu & Hcase).
    exists (influencing ir (inputSet ir F) Inst). apply elem_of_reported.
    split.
    + by rewrite lookup_keyPointMap, decide_True.
    + intros Hempty.
      assert (Hin : v ∈ influencing ir (inputSet ir F) Inst).
      { apply elem_of_influencing. split; [done|].
        apply dependsOn_true. by exists user. }
      rewrite Hempty in Hin. by apply not_elem_of_empty in Hin.
Qed.

(** X12. The text of a run is its first line, then what
    [detectInputVariables] writes on a cleared pass, then what
    [printResults] writes for the containers the run ends with. *)
Theorem runOnFunction_text (F : Function) (st : PassState) :
  errs (exec (runOnFunction ir F) st)
  = errs st ++ banner ir F
    ++ errs (exec (detectInputVariables ir F) newPass)
    ++ errs (exec (printResults ir F)
               (mkPassState (inputVariables (exec (runOnFunction ir F) st))
                  (keyPointDependencies (exec (runOnFunction ir F) st)) [])).
Proof.
  rewrite exec_runOnFunction, exec_detectInputVariables, exec_printResults.
  cbn [with_inputs with_output inputVariables keyPointDependencies errs app].
  unfold run_output, banner. by rewrite <- !app_assoc.
Qed.
End ReportContents.

(** X13. A value with an empty use list passes the dependency test for no
    instruction and is in no set a run records, also when it is in the
    input set. *)
Theorem no_users_no_influence (ir : IR) (v : Value) :
  users ir v = [] →
  (∀ Inst st, eval (isDependentOn ir Inst v) st = false)
  ∧ (∀ F st Inst s,
       keyPointDependencies (exec (runOnFunction ir F) st) !! Inst = Some s →
       v ∉ s).
Proof.
  intros Hnone.
  assert (Hdep : ∀ Inst, dependsOn ir Inst v = false).
  { intros Inst. by rewrite dependsOn_eq, Hnone. }
  split; [intros Inst st; apply Hdep|].
  intros F st Inst s. rewrite exec_runOnFunction. cbn [keyPointDependencies].
  rewrite lookup_keyPointMap. case_decide; [|done]. intros [= <-].
  rewrite elem_of_influencing. intros [_ Htrue].
  rewrite Hdep in Htrue. discriminate Htrue.
Qed.

(** On [NullArgument.ir]: [null] (62) is handed to [scanf] and has no use
    list. *)
Lemma no_users_no_influence_witness :
  (∀ Inst st, eval (isDependentOn NullArgument.ir Inst 62) st = false)
  ∧ (∀ F st Inst s,
       keyPointDependencies (exec (runOnFunction NullArgument.ir F) st) !! Inst
       = Some s →
       62%positive ∉ s).
Proof.
  apply (no_users_no_influence NullArgument.ir 62). reflexivity.
Defined.

(** There [null] is in the input set of [probe], and the call is recorded
    with [@scanf] alone. *)
Example probe_inputVariables :
  set_iter (inputVariables
              (exec (runOnFunction NullArgument.ir NullArgument.probe) newPass))
  = [2; 62]%positive
  ∧ (λ entry, (entry.1, set_iter entry.2)) <$>
      map_iter (keyPointDependencies
                  (exec (runOnFunction NullArgument.ir NullArgument.probe) newPass))
    = [(400, [2])]%positive.
Proof. vm_compute. split; reflexivity. Qed.
